(** * Rex-chatbot: the message endpoints of [functions/api/messages.js]

    The three Cloud Functions handlers [postMessage], [getChat] and
    [deleteChat] are embedded as computations in a small state-and-exception
    monad.  The state carries the document store, the trace of logger and
    store calls, and the positions in two oracles: the identifiers the store
    client generates and the outcomes of the calls that go to the store. *)

From Stdlib Require Import Ascii.
From stdpp Require Import base option list strings pretty gmap fin_maps.

Local Open Scope string_scope.
Local Open Scope list_scope.

Set Warnings "-register-all".

(** ** JavaScript values *)

(** A Number, known by the two observations the handlers make of one: the
    string [Number.prototype.toString] gives for it, and whether it is truthy
    (it is not for [0], [-0] and [NaN]). *)
Record number : Type := Number {
  number_string : string;
  number_truthy : bool
}.

(** The values a property of the callable payload or of [req.query] holds:
    what JSON and the query-string parser deliver. *)
Inductive jsval : Type :=
  | JUndefined
  | JNull
  | JBool (b : bool)
  | JNum (x : number)
  | JStr (s : string)
  | JArr (items : list jsval)
  | JObj (fields : list (string * jsval)).

(** [!v] is [negb (truthy v)]. *)
Definition truthy (v : jsval) : bool :=
  match v with
  | JUndefined | JNull => false
  | JBool b => b
  | JNum x => number_truthy x
  | JStr s => negb (String.eqb s "")
  | JArr _ | JObj _ => true
  end.

(** Whether the object has a property of its own under the key [k]. *)
Definition has_own {A} (k : string) (fields : list (string * A)) : bool :=
  existsb (λ f, String.eqb f.1 k) fields.

(** [v.toString()]; [None] is a TypeError: of [undefined] and [null], and of
    an object whose own [toString] property (a JSON value, never a function)
    hides the method.  An array joins the string forms of its elements with
    commas, [undefined] and [null] counting as empty. *)
Fixpoint toString (v : jsval) : option string :=
  match v with
  | JUndefined | JNull => None
  | JBool true => Some "true"
  | JBool false => Some "false"
  | JNum x => Some (number_string x)
  | JStr s => Some s
  | JArr items =>
      (fix join (l : list jsval) : option string :=
         match l with
         | [] => Some ""
         | x :: rest =>
             match (match x with
                    | JUndefined | JNull => Some ""
                    | _ => toString x
                    end), rest with
             | Some s, [] => Some s
             | Some s, _ :: _ =>
                 match join rest with
                 | Some r => Some (s +:+ "," +:+ r)
                 | None => None
                 end
             | None, _ => None
             end
         end) items
  | JObj fields =>
      if has_own "toString" fields then None else Some "[object Object]"
  end.

(** The message of the TypeError of [name.toString()] on the value [v]. *)
Definition type_error (name : string) (v : jsval) : string :=
  match v with
  | JUndefined => "Cannot read properties of undefined (reading 'toString')"
  | JNull => "Cannot read properties of null (reading 'toString')"
  | JArr _ => "Cannot convert object to primitive value"
  | _ => name +:+ ".toString is not a function"
  end.

(** A payload or query object; a missing property reads [undefined]. *)
Definition prop (o : gmap string jsval) (k : string) : jsval :=
  default JUndefined (o !! k).

(** ** Exceptions *)

Inductive exn : Type :=
  | HttpsError (code message : string) (details : option string)
  | Error (message : string).

(** [error.message] *)
Definition exn_message (e : exn) : string :=
  match e with
  | HttpsError _ m _ => m
  | Error m => m
  end.

Definition exn_code (e : exn) : option string :=
  match e with
  | HttpsError c _ _ => Some c
  | Error _ => None
  end.

(** ** The document store *)

(** A message document: [{senderId, text, timestamp}]. *)
Record message : Type := Message {
  senderId : jsval;
  text : jsval;
  timestamp : nat
}.

(** A document reference: the path of its collection and its identifier. *)
Definition doc_ref : Type := list string * string.

(** Modelled from the spec: the external document store (the Firestore
    service behind [admin.firestore()]).  Collections are keyed by their path
    [users/{userId}/chats/{chatId}/messages]; each holds its documents in the
    order the store returns them.  [now] is the server clock that assigns
    timestamps. *)
Record firestore : Type := Firestore {
  colls : gmap (list string) (list (string * message));
  now : nat
}.

Definition documents (fs : firestore) (coll : list string) : list (string * message) :=
  default [] (colls fs !! coll).

(** What one element of a query snapshot exposes: [doc.ref] and [doc.data()]. *)
Record doc_snapshot : Type := DocSnapshot {
  ref : doc_ref;
  data : message
}.

(** ** Calls observed from outside *)

Inductive event : Type :=
  | ELog (msg : string)                      (* logger.log *)
  | ELogError (msg : string)                 (* logger.error *)
  | EGet (coll : list string)                (* collection.get() *)
  | ECreate (coll : list string) (id : string) (* collection.add() *)
  | ECommit (dels : list doc_ref).           (* batch.commit() *)

Definition is_read (ev : event) : bool :=
  match ev with EGet _ => true | _ => false end.

Definition is_write (ev : event) : bool :=
  match ev with ECreate _ _ | ECommit _ => true | _ => false end.

Definition store_access (ev : event) : bool := is_read ev || is_write ev.

(** ** The monad of handler computations *)

(** What the handler does not control: the identifiers drawn by the store
    client ([autoId k] is the [k]-th one), the outcome of the calls that go
    to the store ([fault k = Some msg] when the [k]-th one is rejected with
    message [msg]: store unreachable, permission denied, a value or a batch
    the store does not take), and the wording of the error with which the
    store client refuses an identifier. *)
Record env : Type := Env {
  autoId : nat → string;
  fault : nat → option string;
  refused : jsval → string
}.

Record sys : Type := Sys {
  db : firestore;
  drawn : nat;
  calls : nat;
  trace : list event
}.

Definition Fn (A : Type) : Type := env → sys → (A + exn) * sys.

Global Instance Fn_ret : MRet Fn := λ A x _ s, (inl x, s).

Global Instance Fn_bind : MBind Fn := λ A B f m e s,
  match m e s with
  | (inl x, s') => f x e s'
  | (inr err, s') => (inr err, s')
  end.

Definition throw {A} (err : exn) : Fn A := λ _ s, (inr err, s).

(** [try { body } catch (error) { handler error }] *)
Definition try_catch {A} (body : Fn A) (handler : exn → Fn A) : Fn A := λ e s,
  match body e s with
  | (inl x, s') => (inl x, s')
  | (inr err, s') => handler err e s'
  end.

Definition emit (ev : event) : Fn unit := λ _ s,
  (inl (), Sys (db s) (drawn s) (calls s) (trace s ++ [ev])).

Definition logger_log (msg : string) : Fn unit := emit (ELog msg).
Definition logger_error (msg : string) : Fn unit := emit (ELogError msg).

Definition get_db : Fn firestore := λ _ s, (inl (db s), s).

Definition put_db (fs : firestore) : Fn unit := λ _ s,
  (inl (), Sys fs (drawn s) (calls s) (trace s)).

(** Modelled from the spec: one call that goes to the external store, which
    fails when the store is unavailable or rejects the call (the oracle
    says which, and with what message). *)
Definition network : Fn unit := λ e s,
  let s' := Sys (db s) (drawn s) (S (calls s)) (trace s) in
  match fault e (calls s) with
  | Some msg => (inr (Error msg), s')
  | None => (inl (), s')
  end.

(** Modelled from the spec: the identifier the store generates, as
    [collection.doc()] called without argument returns it. *)
Definition auto_id : Fn string := λ e s,
  (inl (autoId e (drawn s)), Sys (db s) (S (drawn s)) (calls s) (trace s)).

(** [name.toString()] inside a handler, [v] being the value of [name]. *)
Definition to_string (name : string) (v : jsval) : Fn string :=
  match toString v with
  | Some s => mret s
  | None => throw (Error (type_error name v))
  end.

(** ** The store client *)

(** [parent.collection(name)] *)
Definition collection (name : string) (parent : list string) : list string :=
  parent ++ [name].

(** The pieces of [s] between its slashes, [s.split('/')]. *)
Fixpoint split_slash (s : string) : list string :=
  match s with
  | EmptyString => [""]
  | String c rest =>
      if Ascii.eqb c "/"%char then "" :: split_slash rest
      else match split_slash rest with
           | x :: xs => String c x :: xs
           | [] => [String c ""]
           end
  end.

(** The path segments an identifier stands for: its non-empty pieces. *)
Definition segments (s : string) : list string :=
  filter (λ x, x ≠ "") (split_slash s).

(** [s.indexOf('//') >= 0] *)
Fixpoint has_double_slash (s : string) : bool :=
  match s with
  | EmptyString => false
  | String c rest =>
      match rest with
      | String c' _ => Ascii.eqb c "/"%char && Ascii.eqb c' "/"%char || has_double_slash rest
      | EmptyString => false
      end
  end.

(** A path names a document when it has an even, positive number of
    segments. *)
Definition is_document (p : list string) : bool :=
  (0 <? length p)%nat && Nat.even (length p).

(** Whether the store client takes [s] as the identifier of a document of
    the collection [coll]. *)
Definition names_document (coll : list string) (s : string) : bool :=
  negb (String.eqb s "") && negb (has_double_slash s)
  && is_document (coll ++ segments s).

(** The store client refusing the identifier [id]. *)
Definition refuse {A} (id : jsval) : Fn A := λ e s,
  (inr (Error (refused e id)), s).

(** Modelled from the spec: [coll.doc(id)] of the store client, with that
    client's reading of identifiers as paths.  The identifier has to be a
    non-empty string without [//]; its segments are appended to the path of
    the collection, and the result has to name a document.  Anything else is
    refused with an error. *)
Definition doc (id : jsval) (coll : list string) : Fn (list string) :=
  match id with
  | JStr s =>
      if names_document coll s then mret (coll ++ segments s) else refuse id
  | _ => refuse id
  end.

Definition has_id (id : string) (docs : list (string * message)) : bool :=
  bool_decide (id ∈ docs.*1).

(** Modelled from the spec: [coll.add({senderId, text, timestamp:
    serverTimestamp()})] of the store client.  It draws an identifier,
    creates the document under it (never over an existing one) with the
    timestamp of the server clock, and resolves to the identifier. *)
Definition add (coll : list string) (sender txt : jsval) : Fn string :=
  id ← auto_id;
  emit (ECreate coll id);;
  network;;
  fs ← get_db;
  if has_id id (documents fs coll)
  then throw (Error "Document already exists")
  else
    put_db (Firestore
              (<[coll := documents fs coll ++ [(id, Message sender txt (now fs))]]> (colls fs))
              (S (now fs)));;
    mret id.

(** Modelled from the spec: [coll.get()] of the store client, the snapshot
    of every document of the collection. *)
Definition get (coll : list string) : Fn (list doc_snapshot) :=
  emit (EGet coll);;
  network;;
  fs ← get_db;
  mret (map (λ d, DocSnapshot (coll, d.1) d.2) (documents fs coll)).

(** The store without the document [r]. *)
Definition delete_doc (r : doc_ref) (m : gmap (list string) (list (string * message)))
  : gmap (list string) (list (string * message)) :=
  alter (filter (λ d, d.1 ≠ r.2)) r.1 m.

(** Modelled from the spec: [batch.commit()] of a batch holding the
    deletions [dels]; all of them are applied, or none when the call fails.
    Deleting a document that does not exist changes nothing. *)
Definition commit (dels : list doc_ref) : Fn unit :=
  emit (ECommit dels);;
  network;;
  fs ← get_db;
  put_db (Firestore (foldr delete_doc (colls fs) dels) (now fs)).

(** ** The handlers *)

(** What a successful [postMessage] returns. *)
Record post_result : Type := PostResult {
  status : string;
  chatId : jsval;
  messageId : string
}.

(** The JSON bodies sent with [res.status(code).json(body)]. *)
Inductive json_body : Type :=
  | ChatMessages (st : string) (messages : list message)
  | StatusOnly (st : string).

Record response : Type := Response {
  http_status : nat;
  body : json_body
}.

(** [admin.firestore()]: the root of every path. *)
Definition firestore_root : list string := [].

(** The [try] block of [postMessage]. *)
Definition postMessage_try (payload : gmap string jsval) : Fn post_result :=
  logger_log "Receiving message data data for POST";;
  let userId := prop payload "userId" in
  let text := prop payload "text" in
  let senderId := prop payload "senderId" in
  let chatId := prop payload "chatId" in
  (if negb (truthy text) || negb (truthy senderId) || negb (truthy userId)
   then
     logger_log "Required fields are missing";;
     throw (HttpsError "invalid-argument"
              "Required fields (text or ID's for sender or receiver) are missing"
              None)
   else mret ());;
  newChatId ←
    (if negb (truthy chatId)
     then
       user ← doc userId (collection "users" firestore_root);
       id ← auto_id;
       mret (JStr id)
     else mret chatId);
  user ← doc userId (collection "users" firestore_root);
  segment ← to_string "newChatId" newChatId;
  chat ← doc (JStr segment) (collection "chats" user);
  messageRef ← add (collection "messages" chat) senderId text;
  mret (PostResult "new message" newChatId messageRef).

(** The [catch] block of [postMessage]. *)
Definition postMessage_catch (error : exn) : Fn post_result :=
  logger_log "Error adding message: ";;
  throw (HttpsError "unknown" "An error occurred while adding the message"
           (Some (exn_message error))).

Definition postMessage (payload : gmap string jsval) : Fn post_result :=
  try_catch (postMessage_try payload) postMessage_catch.

(** The [try] block of [getChat]. *)
Definition getChat_try (query : gmap string jsval) : Fn response :=
  logger_log "Receiving data of a specific user's chat";;
  let userId := prop query "userId" in
  let chatId := prop query "chatId" in
  (if negb (truthy userId) || negb (truthy chatId)
   then
     logger_log "Required fields are missing";;
     throw (HttpsError "invalid-argument"
              "Required fields (ID's for user and chat) are missing" None)
   else mret ());;
  user ← doc userId (collection "users" firestore_root);
  segment ← to_string "chatId" chatId;
  chat ← doc (JStr segment) (collection "chats" user);
  chatMessagesSnapshot ← get (collection "messages" chat);
  let messages := map data chatMessagesSnapshot in
  mret (Response 200 (ChatMessages "successfully got chat messages" messages)).

(** The [catch] block of [getChat]. *)
Definition getChat_catch (error : exn) : Fn response :=
  logger_error "Error fetching messages:";;
  throw (HttpsError "unknown" "An error occurred while get a specific chat"
           (Some (exn_message error))).

Definition getChat (query : gmap string jsval) : Fn response :=
  try_catch (getChat_try query) getChat_catch.

(** The [try] block of [deleteChat]. *)
Definition deleteChat_try (query : gmap string jsval) : Fn response :=
  logger_log "Receiving data to delete messages";;
  let userId := prop query "userId" in
  let chatId := prop query "chatId" in
  (if negb (truthy userId) || negb (truthy chatId)
   then
     logger_log "Required fields are missing";;
     throw (HttpsError "invalid-argument"
              "Required fields (ID's for user and chat) are missing" None)
   else mret ());;
  user ← doc userId (collection "users" firestore_root);
  segment ← to_string "chatId" chatId;
  chat ← doc (JStr segment) (collection "chats" user);
  chatMessagesSnapshot ← get (collection "messages" chat);
  let batch := map ref chatMessagesSnapshot in
  commit batch;;
  mret (Response 200 (StatusOnly "successfully deleted chat messages")).

(** The [catch] block of [deleteChat]. *)
Definition deleteChat_catch (error : exn) : Fn response :=
  logger_error "Error fetching messages:";;
  throw (HttpsError "unknown" "An error occurred while deleted the messages"
           (Some (exn_message error))).

Definition deleteChat (query : gmap string jsval) : Fn response :=
  try_catch (deleteChat_try query) deleteChat_catch.

(** The path of the document of user [u]: [users/{u}]. *)
Definition user_path (u : string) : list string :=
  collection "users" firestore_root ++ segments u.

(** The path of the document of chat [c] of user [u]: [users/{u}/chats/{c}]. *)
Definition chat_path (u c : string) : list string :=
  collection "chats" (user_path u) ++ segments c.

(** The path of the message collection of chat [c] of user [u]:
    [users/{u}/chats/{c}/messages]. *)
Definition messages_path (u c : string) : list string :=
  collection "messages" (chat_path u c).

Definition no_faults : nat → option string := λ _, None.
(** A wording for the refusals of the store client. *)
Definition plain_refusal : jsval → string := λ _, "not a valid resource path".
Definition ids_from (prefix : string) : nat → string := λ k, prefix +:+ pretty k.
Definition empty_store : firestore := Firestore ∅ 0.
Definition boot (fs : firestore) : sys := Sys fs 0 0 [].

(** * Vocabulary of the properties *)

(** The state after appending the events [evs] to the trace. *)
Definition logged (s : sys) (evs : list event) : sys :=
  Sys (db s) (drawn s) (calls s) (trace s ++ evs).

(** A run from [s] that fails with an error of code [code], leaves the
    store as it was and makes no store call. *)
Definition fails_without_store_access {A} (run : (A + exn) * sys) (s : sys)
    (code : string) : Prop :=
  ∃ err evs,
    run.1 = inr err ∧ exn_code err = Some code
    ∧ db run.2 = db s
    ∧ trace run.2 = trace s ++ evs ∧ existsb store_access evs = false.

Definition post_rejection : exn :=
  HttpsError "unknown" "An error occurred while adding the message"
    (Some "Required fields (text or ID's for sender or receiver) are missing").

Definition query_rejection (what : string) : exn :=
  HttpsError "unknown" what
    (Some "Required fields (ID's for user and chat) are missing").

(** A computation is read-only when, from every state and under every
    oracle, it leaves the store as it found it and issues no write. *)
Definition read_only {A} (m : Fn A) : Prop :=
  ∀ e s,
    db (m e s).2 = db s
    ∧ ∃ evs, trace (m e s).2 = trace s ++ evs ∧ existsb is_write evs = false.

(** The references of the documents a snapshot of [coll] lists. *)
Definition chat_refs (fs : firestore) (coll : list string) : list doc_ref :=
  map (λ d, (coll, d.1)) (documents fs coll).

(** The query names the chat [c] of user [u]: [userId] is the string [u],
    which names a user document, [chatId] is truthy and its string form [c]
    names a chat document of that user. *)
Definition resolves (query : gmap string jsval) (u c : string) : Prop :=
  prop query "userId" = JStr u
  ∧ names_document (collection "users" firestore_root) u = true
  ∧ truthy (prop query "chatId") = true
  ∧ toString (prop query "chatId") = Some c
  ∧ names_document (collection "chats" (user_path u)) c = true.

Definition deleted_ok : response :=
  Response 200 (StatusOnly "successfully deleted chat messages").

Definition demo_env : env := Env (ids_from "id") no_faults plain_refusal.

Definition demo_message (k : nat) : message :=
  Message (JStr "alice") (JStr "hello") k.

(** A store with one chat of three messages and another of one. *)
Definition demo_store : firestore :=
  Firestore
    {[ messages_path "u" "c" :=
         [("m1", demo_message 0); ("m2", demo_message 1); ("m3", demo_message 2)];
       messages_path "u" "d" := [("m4", demo_message 3)] ]}
    4.

Definition demo_query : gmap string jsval :=
  {[ "userId" := JStr "u"; "chatId" := JStr "c" ]}.

(** The chat identifier the handler goes on with: the one of the payload
    when it is truthy, the next identifier of the store client otherwise. *)
Definition chosen_chat (payload : gmap string jsval) (e : env) (s : sys) : jsval :=
  if truthy (prop payload "chatId") then prop payload "chatId"
  else JStr (autoId e (drawn s)).

(** The identifier the store client draws for the message document. *)
Definition chosen_message (payload : gmap string jsval) (e : env) (s : sys) : string :=
  autoId e (if truthy (prop payload "chatId") then drawn s else S (drawn s)).

(** The payload is accepted and names the collection [users/u/chats/c/messages]. *)
Definition accepted (payload : gmap string jsval) (e : env) (s : sys)
    (u c : string) : Prop :=
  prop payload "userId" = JStr u
  ∧ names_document (collection "users" firestore_root) u = true
  ∧ truthy (prop payload "text") = true
  ∧ truthy (prop payload "senderId") = true
  ∧ toString (chosen_chat payload e s) = Some c
  ∧ names_document (collection "chats" (user_path u)) c = true.

(** The store after the message of the payload was added to the chat. *)
Definition store_with_message (payload : gmap string jsval) (e : env) (s : sys)
    (u c : string) : firestore :=
  Firestore
    (<[messages_path u c :=
         documents (db s) (messages_path u c)
         ++ [(chosen_message payload e s,
              Message (prop payload "senderId") (prop payload "text") (now (db s)))]]>
       (colls (db s)))
    (S (now (db s))).

Definition demo_payload : gmap string jsval :=
  {[ "userId" := JStr "u"; "text" := JStr "hi"; "senderId" := JStr "bob";
     "chatId" := JStr "c" ]}.

Definition numbered_payload : gmap string jsval :=
  {[ "userId" := JStr "u"; "text" := JStr "hi"; "senderId" := JStr "bob";
     "chatId" := JNum (Number "5" true) ]}.

Definition new_chat_payload : gmap string jsval :=
  {[ "userId" := JStr "u"; "text" := JStr "hi"; "senderId" := JStr "bob" ]}.

(** The state [st] with the store replaced by [fs]. *)
Definition with_db (st : sys) (fs : firestore) : sys :=
  Sys fs (drawn st) (calls st) (trace st).


(** The chat "c" of user "u", written with a slash at the end. *)
Definition slash_query : gmap string jsval :=
  {[ "userId" := JStr "u"; "chatId" := JStr "c/" ]}.

Definition other_query : gmap string jsval :=
  {[ "userId" := JStr "u"; "chatId" := JStr "6" ]}.

(** A computation that leaves the store as it found it, whatever its
    outcome. *)
Definition keeps_db {A} (m : Fn A) : Prop :=
  ∀ e s, db (m e s).2 = db s.

(** A computation that leaves the store as it found it whenever it fails. *)
Definition fail_safe {A} (m : Fn A) : Prop :=
  ∀ e s err, (m e s).1 = inr err → db (m e s).2 = db s.

(** What the store guarantees of its content: within a collection no two
    documents share an identifier, and every timestamp was assigned before
    the current time of the server clock. *)
Definition store_ok (fs : firestore) : Prop :=
  ∀ coll,
    NoDup (documents fs coll).*1
    ∧ Forall (λ d, (timestamp d.2 < now fs)%nat) (documents fs coll).

(** An oracle whose [k]-th network call is rejected with message [msg]. *)
Definition fault_at (k : nat) (msg : string) : nat → option string :=
  λ i, if decide (i = k) then Some msg else None.

(** An environment whose store rejects the [k]-th network call. *)
Definition faulty_env (k : nat) (msg : string) : env :=
  Env (ids_from "id") (fault_at k msg) plain_refusal.

(** * Properties *)

(** ** Stepping through a handler *)

#[local] Arguments segments : simpl never.
#[local] Arguments names_document : simpl never.
#[local] Arguments documents : simpl never.
#[local] Arguments has_id : simpl never.

Ltac unfold_fn :=
  unfold try_catch, logger_log, logger_error, emit, throw, refuse, get_db,
    put_db, network, auto_id, to_string, mbind, mret, Fn_bind, Fn_ret in *.

Ltac step H := rewrite H; simpl.

(** Paths in one form: a list of segments built with [::] and [++]. *)
Ltac norm_paths :=
  unfold messages_path, chat_path, user_path, collection, firestore_root in *;
  simpl in *.

Lemma truthy_JStr (s : string) : truthy (JStr s) = true ↔ s ≠ "".
Proof.
  simpl. destruct (String.eqb_spec s ""); simpl; split; congruence.
Qed.

(** ** Rejection of incomplete requests *)

Lemma postMessage_rejected payload e s :
  negb (truthy (prop payload "text")) || negb (truthy (prop payload "senderId"))
    || negb (truthy (prop payload "userId")) = true →
  postMessage payload e s =
    (inr post_rejection,
     logged s [ELog "Receiving message data data for POST";
               ELog "Required fields are missing";
               ELog "Error adding message: "]).
Proof.
  intros H. unfold postMessage, postMessage_try, postMessage_catch. unfold_fn. rewrite H. simpl.
  unfold logged. by rewrite <- ?(app_assoc (trace s)).
Qed.

Lemma getChat_rejected query e s :
  negb (truthy (prop query "userId")) || negb (truthy (prop query "chatId")) = true →
  getChat query e s =
    (inr (query_rejection "An error occurred while get a specific chat"),
     logged s [ELog "Receiving data of a specific user's chat";
               ELog "Required fields are missing";
               ELogError "Error fetching messages:"]).
Proof.
  intros H. unfold getChat, getChat_try, getChat_catch. unfold_fn. rewrite H. simpl.
  unfold logged. by rewrite <- ?(app_assoc (trace s)).
Qed.

Lemma deleteChat_rejected query e s :
  negb (truthy (prop query "userId")) || negb (truthy (prop query "chatId")) = true →
  deleteChat query e s =
    (inr (query_rejection "An error occurred while deleted the messages"),
     logged s [ELog "Receiving data to delete messages";
               ELog "Required fields are missing";
               ELogError "Error fetching messages:"]).
Proof.
  intros H. unfold deleteChat, deleteChat_try, deleteChat_catch. unfold_fn. rewrite H. simpl.
  unfold logged. by rewrite <- ?(app_assoc (trace s)).
Qed.

Lemma falsy_pair (a b : jsval) :
  truthy a = false ∨ truthy b = false → negb (truthy a) || negb (truthy b) = true.
Proof. intros [-> | ->]; simpl; [done | by rewrite orb_true_r]. Qed.

(** C1 (as the code behaves): when [text], [senderId] or [userId] is missing
    or falsy, [postMessage] writes nothing to the store and makes no store
    call, but the error it fails with has code [unknown], not
    [invalid-argument]: the error thrown by the check is caught by the
    handler's own [catch] and survives only as the detail of the error
    thrown there. *)
Theorem postMessage_missing_field_fails_unknown payload e s :
  truthy (prop payload "text") = false
  ∨ truthy (prop payload "senderId") = false
  ∨ truthy (prop payload "userId") = false →
  fails_without_store_access (postMessage payload e s) s "unknown"
  ∧ ¬ fails_without_store_access (postMessage payload e s) s "invalid-argument"
  ∧ (postMessage payload e s).1 = inr post_rejection.
Proof.
  intros H.
  rewrite postMessage_rejected
    by (destruct H as [-> | [-> | ->]]; simpl; by rewrite ?orb_true_r).
  split; [| split; [| done]].
  - eexists _, _. simpl. repeat split; done.
  - intros (err & evs & Herr & Hcode & _). simpl in Herr.
    injection Herr as <-. discriminate.
Qed.

Lemma postMessage_missing_field_fails_unknown_witness :
  let payload : gmap string jsval := {[ "userId" := JStr "u"; "senderId" := JStr "s" ]} in
  let e := demo_env in
  let s := boot empty_store in
  fails_without_store_access (postMessage payload e s) s "unknown"
  ∧ ¬ fails_without_store_access (postMessage payload e s) s "invalid-argument"
  ∧ (postMessage payload e s).1 = inr post_rejection.
Proof.
  intros payload e s.
  apply (postMessage_missing_field_fails_unknown payload e s).
  left. reflexivity.
Defined.

(** C2 (as the code behaves): a [getChat] or [deleteChat] call whose query
    lacks [userId] or [chatId] reads and writes nothing, but fails with an
    error of code [unknown], not [invalid-argument]: the handlers' [catch]
    rewraps the error of the check. *)
Theorem query_missing_id_fails_unknown query e s :
  query !! "userId" = None ∨ query !! "chatId" = None →
  (fails_without_store_access (getChat query e s) s "unknown"
   ∧ ¬ fails_without_store_access (getChat query e s) s "invalid-argument")
  ∧ (fails_without_store_access (deleteChat query e s) s "unknown"
     ∧ ¬ fails_without_store_access (deleteChat query e s) s "invalid-argument").
Proof.
  intros H.
  assert (negb (truthy (prop query "userId")) || negb (truthy (prop query "chatId")) = true)
    as Hfalsy.
  { apply falsy_pair. unfold prop. destruct H as [-> | ->]; auto. }
  rewrite getChat_rejected, deleteChat_rejected by done.
  split; split.
  1,3: eexists _, _; simpl; repeat split; done.
  all: intros (err & evs & Herr & Hcode & _); simpl in Herr;
    injection Herr as <-; discriminate.
Qed.

Lemma query_missing_id_fails_unknown_witness :
  let query : gmap string jsval := {[ "userId" := JStr "u" ]} in
  let e := demo_env in
  let s := boot empty_store in
  (fails_without_store_access (getChat query e s) s "unknown"
   ∧ ¬ fails_without_store_access (getChat query e s) s "invalid-argument")
  ∧ (fails_without_store_access (deleteChat query e s) s "unknown"
     ∧ ¬ fails_without_store_access (deleteChat query e s) s "invalid-argument").
Proof.
  intros query e s.
  apply (query_missing_id_fails_unknown query e s).
  right. reflexivity.
Defined.

(** C9: a [userId] or [chatId] that is present in the query with a falsy
    value (the empty string) is rejected exactly as a missing one: the run is
    the run of the query without the parameter, it logs the message of the
    validation branch and ends before any store call. *)
Theorem falsy_id_rejected_like_missing query k v e s :
  k = "userId" ∨ k = "chatId" →
  query !! k = Some v → truthy v = false →
  (getChat query e s = getChat (delete k query) e s
   ∧ getChat query e s =
       (inr (query_rejection "An error occurred while get a specific chat"),
        logged s [ELog "Receiving data of a specific user's chat";
                  ELog "Required fields are missing";
                  ELogError "Error fetching messages:"]))
  ∧ (deleteChat query e s = deleteChat (delete k query) e s
     ∧ deleteChat query e s =
         (inr (query_rejection "An error occurred while deleted the messages"),
          logged s [ELog "Receiving data to delete messages";
                    ELog "Required fields are missing";
                    ELogError "Error fetching messages:"])).
Proof.
  intros Hk Hv Hfalsy.
  assert (negb (truthy (prop query "userId")) || negb (truthy (prop query "chatId")) = true)
    as Hq.
  { apply falsy_pair. unfold prop. destruct Hk as [-> | ->]; rewrite Hv; auto. }
  assert (negb (truthy (prop (delete k query) "userId"))
          || negb (truthy (prop (delete k query) "chatId")) = true) as Hd.
  { apply falsy_pair. unfold prop.
    destruct Hk as [-> | ->]; rewrite lookup_delete_eq; auto. }
  rewrite !getChat_rejected, !deleteChat_rejected by done. done.
Qed.

Lemma falsy_id_rejected_like_missing_witness :
  let query : gmap string jsval := {[ "userId" := JStr "u"; "chatId" := JStr "" ]} in
  let e := demo_env in
  let s := boot empty_store in
  (getChat query e s = getChat (delete "chatId" query) e s
   ∧ getChat query e s =
       (inr (query_rejection "An error occurred while get a specific chat"),
        logged s [ELog "Receiving data of a specific user's chat";
                  ELog "Required fields are missing";
                  ELogError "Error fetching messages:"]))
  ∧ (deleteChat query e s = deleteChat (delete "chatId" query) e s
     ∧ deleteChat query e s =
         (inr (query_rejection "An error occurred while deleted the messages"),
          logged s [ELog "Receiving data to delete messages";
                    ELog "Required fields are missing";
                    ELogError "Error fetching messages:"])).
Proof.
  intros query e s.
  apply (falsy_id_rejected_like_missing query "chatId" (JStr "") e s).
  - right. reflexivity.
  - reflexivity.
  - reflexivity.
Defined.

(** ** Computations that only read *)

Create HintDb readonly.

Lemma read_only_ret {A} (x : A) : read_only (mret x).
Proof. intros e s. split; [done |]. exists []. by rewrite app_nil_r. Qed.

Lemma read_only_throw {A} (err : exn) : read_only (@throw A err).
Proof. intros e s. split; [done |]. exists []. by rewrite app_nil_r. Qed.

Lemma read_only_bind {A B} (m : Fn A) (f : A → Fn B) :
  read_only m → (∀ x, read_only (f x)) → read_only (m ≫= f).
Proof.
  intros Hm Hf e s. destruct (Hm e s) as (Hdb & evs & Htr & Hw).
  unfold mbind, Fn_bind. destruct (m e s) as [[x | err] s1]; simpl in *.
  - destruct (Hf x e s1) as (Hdb' & evs' & Htr' & Hw'). split; [congruence |].
    exists (evs ++ evs'). rewrite Htr', Htr, app_assoc. split; [done |].
    rewrite existsb_app, Hw, Hw'. done.
  - split; [done |]. by exists evs.
Qed.

Lemma read_only_try_catch {A} (body : Fn A) (handler : exn → Fn A) :
  read_only body → (∀ err, read_only (handler err)) → read_only (try_catch body handler).
Proof.
  intros Hm Hf e s. destruct (Hm e s) as (Hdb & evs & Htr & Hw).
  unfold try_catch. destruct (body e s) as [[x | err] s1]; simpl in *.
  - split; [done |]. by exists evs.
  - destruct (Hf err e s1) as (Hdb' & evs' & Htr' & Hw'). split; [congruence |].
    exists (evs ++ evs'). rewrite Htr', Htr, app_assoc. split; [done |].
    rewrite existsb_app, Hw, Hw'. done.
Qed.

Lemma read_only_emit (ev : event) : is_write ev = false → read_only (emit ev).
Proof.
  intros Hev e s. split; [done |]. exists [ev]. simpl. by rewrite Hev.
Qed.

Lemma read_only_network : read_only network.
Proof.
  intros e s. unfold network. destruct (fault e (calls s)); simpl;
    (split; [done |]); exists []; by rewrite app_nil_r.
Qed.

Lemma read_only_get_db : read_only get_db.
Proof. intros e s. split; [done |]. exists []. by rewrite app_nil_r. Qed.

Lemma read_only_if {A} (b : bool) (m1 m2 : Fn A) :
  read_only m1 → read_only m2 → read_only (if b then m1 else m2).
Proof. by destruct b. Qed.

Lemma read_only_refuse {A} id : read_only (@refuse A id).
Proof. intros e s. split; [done |]. exists []. by rewrite app_nil_r. Qed.

Lemma read_only_doc id coll : read_only (doc id coll).
Proof.
  destruct id; simpl; try apply read_only_refuse.
  apply read_only_if; [apply read_only_ret | apply read_only_refuse].
Qed.

Lemma read_only_to_string name v : read_only (to_string name v).
Proof.
  unfold to_string. destruct (toString v); [apply read_only_ret | apply read_only_throw].
Qed.

#[local] Hint Resolve read_only_ret read_only_throw read_only_network
  read_only_get_db read_only_doc read_only_to_string : readonly.
#[local] Hint Extern 1 (read_only (emit _)) =>
  apply read_only_emit; reflexivity : readonly.
#[local] Hint Extern 2 (read_only (_ ≫= _)) =>
  apply read_only_bind; [| intros ?] : readonly.
#[local] Hint Extern 2 (read_only (if _ then _ else _)) =>
  apply read_only_if : readonly.

Lemma read_only_get coll : read_only (get coll).
Proof. unfold get. auto 10 with readonly. Qed.

Lemma read_only_getChat query : read_only (getChat query).
Proof.
  unfold getChat, getChat_try, getChat_catch, logger_log, logger_error.
  apply read_only_try_catch; [| intros err]; cbv zeta;
    auto 20 using read_only_get with readonly.
Qed.

(** C7: [getChat] has no side effect on the store: whatever the request and
    whether the call succeeds or fails, the store after the call is the store
    before it, and the call issued no write (so it can be retried). *)
Theorem getChat_read_only query e s :
  db (getChat query e s).2 = db s
  ∧ ∃ evs, trace (getChat query e s).2 = trace s ++ evs
           ∧ existsb is_write evs = false.
Proof. apply read_only_getChat. Qed.

(** ** Batched deletion *)

Lemma lookup_delete_docs_ne (m : gmap (list string) (list (string * message)))
    (coll coll' : list string) (ids : list string) :
  coll ≠ coll' →
  foldr delete_doc m (map (λ i, (coll, i)) ids) !! coll' = m !! coll'.
Proof.
  intros Hne. induction ids as [| i ids IH]; simpl; [done |].
  unfold delete_doc at 1. simpl. by rewrite lookup_alter_ne.
Qed.

Lemma lookup_delete_docs_eq (m : gmap (list string) (list (string * message)))
    (coll : list string) (ids : list string) :
  foldr delete_doc m (map (λ i, (coll, i)) ids) !! coll
  = filter (λ d, d.1 ∉ ids) <$> m !! coll.
Proof.
  induction ids as [| i ids IH]; simpl.
  - destruct (m !! coll) as [docs |]; simpl; [| done]. f_equal.
    induction docs as [| d docs IHd]; [done |].
    rewrite filter_cons_True by apply not_elem_of_nil. by rewrite <- IHd.
  - unfold delete_doc at 1. simpl. rewrite lookup_alter_eq, IH.
    destruct (m !! coll) as [docs |]; simpl; [| done]. f_equal.
    rewrite list_filter_filter. apply list_filter_iff.
    intros d. rewrite not_elem_of_cons. naive_solver.
Qed.

Lemma chat_refs_ids fs coll :
  chat_refs fs coll = map (λ i, (coll, i)) (documents fs coll).*1.
Proof.
  unfold chat_refs. induction (documents fs coll) as [| d docs IH]; [done |].
  simpl. by rewrite IH.
Qed.

Lemma filter_all_out {A} (P : A → Prop) `{∀ x, Decision (P x)} (l : list A) :
  (∀ x, x ∈ l → ¬ P x) → filter P l = [].
Proof.
  induction l as [| x l IH]; intros Hl; [done |].
  rewrite filter_cons_False by (apply Hl; left).
  apply IH. intros y Hy. apply Hl. by right.
Qed.

(** Committing the deletion of every document of [coll] empties it and
    leaves the other collections as they were. *)
Lemma documents_after_delete_all fs coll :
  documents (Firestore (foldr delete_doc (colls fs) (chat_refs fs coll)) (now fs)) coll = [].
Proof.
  unfold documents at 1. simpl. rewrite chat_refs_ids, lookup_delete_docs_eq.
  unfold documents. destruct (colls fs !! coll) as [docs |]; simpl; [| done].
  apply filter_all_out. intros d Hd Hout. apply Hout.
  by apply list_elem_of_fmap_2.
Qed.

Lemma documents_after_delete_other fs coll coll' :
  coll ≠ coll' →
  documents (Firestore (foldr delete_doc (colls fs) (chat_refs fs coll)) (now fs)) coll'
  = documents fs coll'.
Proof.
  intros Hne. unfold documents at 1 2. simpl.
  by rewrite chat_refs_ids, lookup_delete_docs_ne.
Qed.

(** ** Runs of [getChat] and [deleteChat] that reach the store *)

Lemma names_document_nonempty coll s : names_document coll s = true → s ≠ "".
Proof.
  unfold names_document. intros H ->. done.
Qed.

Lemma names_document_eqb coll s :
  names_document coll s = true → String.eqb s "" = false.
Proof.
  intros H. apply names_document_nonempty in H.
  by destruct (String.eqb_spec s "").
Qed.

Lemma snapshot_data coll (docs : list (string * message)) :
  map data (map (λ d, DocSnapshot (coll, d.1) d.2) docs) = docs.*2.
Proof. induction docs as [| d docs IH]; simpl; [done | by rewrite IH]. Qed.

Lemma snapshot_refs fs coll :
  map ref (map (λ d, DocSnapshot (coll, d.1) d.2) (documents fs coll)) = chat_refs fs coll.
Proof.
  unfold chat_refs. induction (documents fs coll) as [| d docs IH]; simpl;
    [done | by rewrite IH].
Qed.

Lemma getChat_ok query u c e s :
  resolves query u c → fault e (calls s) = None →
  getChat query e s =
    (inl (Response 200 (ChatMessages "successfully got chat messages"
                          (documents (db s) (messages_path u c)).*2)),
     Sys (db s) (drawn s) (S (calls s))
       (trace s ++ [ELog "Receiving data of a specific user's chat";
                    EGet (messages_path u c)])).
Proof.
  intros (Hu & Hnu & Ht & Hs & Hnc) Hfault.
  pose proof (names_document_eqb _ _ Hnu) as Hue.
  unfold getChat, getChat_try, getChat_catch, get. unfold_fn. norm_paths.
  rewrite Hu, Ht. simpl. step Hue. step Hnu. step Hs. step Hnc. step Hfault.
  by rewrite snapshot_data, <- ?(app_assoc (trace s)).
Qed.

Lemma getChat_inv query e s r s' :
  getChat query e s = (inl r, s') →
  ∃ u c, resolves query u c ∧ fault e (calls s) = None.
Proof.
  unfold getChat, getChat_try, getChat_catch, get, resolves. unfold_fn.
  destruct (truthy (prop query "userId")) eqn:Hu; [| done].
  destruct (truthy (prop query "chatId")) eqn:Hc; [| done]. simpl.
  destruct (prop query "userId") as [| | | | u | |]; try done. simpl.
  destruct (names_document _ u) eqn:Hnu; [| done]. simpl.
  destruct (toString (prop query "chatId")) as [c |] eqn:Hs; [| done]. simpl.
  destruct (names_document _ c) eqn:Hnc; [| done]. simpl.
  destruct (fault e (calls s)) eqn:Hf; [done |]. intros _.
  exists u, c. by split_and!.
Qed.

Lemma deleteChat_ok query u c e s :
  resolves query u c →
  fault e (calls s) = None → fault e (S (calls s)) = None →
  deleteChat query e s =
    (inl (Response 200 (StatusOnly "successfully deleted chat messages")),
     Sys (Firestore (foldr delete_doc (colls (db s))
                       (chat_refs (db s) (messages_path u c)))
           (now (db s)))
       (drawn s) (S (S (calls s)))
       (trace s ++ [ELog "Receiving data to delete messages";
                    EGet (messages_path u c);
                    ECommit (chat_refs (db s) (messages_path u c))])).
Proof.
  intros (Hu & Hnu & Ht & Hs & Hnc) Hf1 Hf2.
  pose proof (names_document_eqb _ _ Hnu) as Hue.
  unfold deleteChat, deleteChat_try, deleteChat_catch, get, commit. unfold_fn.
  norm_paths.
  rewrite Hu, Ht. simpl. step Hue. step Hnu. step Hs. step Hnc. step Hf1. step Hf2.
  by rewrite snapshot_refs, <- ?(app_assoc (trace s)).
Qed.

Lemma deleteChat_inv query e s r s' :
  deleteChat query e s = (inl r, s') →
  ∃ u c, resolves query u c
         ∧ fault e (calls s) = None ∧ fault e (S (calls s)) = None.
Proof.
  unfold deleteChat, deleteChat_try, deleteChat_catch, get, commit, resolves. unfold_fn.
  destruct (truthy (prop query "userId")) eqn:Hu; [| done].
  destruct (truthy (prop query "chatId")) eqn:Hc; [| done]. simpl.
  destruct (prop query "userId") as [| | | | u | |]; try done. simpl.
  destruct (names_document _ u) eqn:Hnu; [| done]. simpl.
  destruct (toString (prop query "chatId")) as [c |] eqn:Hs; [| done]. simpl.
  destruct (names_document _ c) eqn:Hnc; [| done]. simpl.
  destruct (fault e (calls s)) eqn:Hf; [done |]. simpl.
  destruct (fault e (S (calls s))) eqn:Hf2; [done |]. intros _.
  exists u, c. by split_and!.
Qed.


(** C5: a successful [deleteChat] on a chat of N messages answers HTTP 200
    with status "successfully deleted chat messages", after one batch commit
    that holds the N deletions; the chat is then empty, so a following
    [getChat] of the same query returns an empty message sequence. *)
Theorem deleteChat_removes_all_messages query e s resp s' :
  deleteChat query e s = (inl resp, s') →
  ∃ u c,
    resolves query u c
    ∧ resp = Response 200 (StatusOnly "successfully deleted chat messages")
    ∧ trace s' = trace s ++ [ELog "Receiving data to delete messages";
                             EGet (messages_path u c);
                             ECommit (chat_refs (db s) (messages_path u c))]
    ∧ length (chat_refs (db s) (messages_path u c))
      = length (documents (db s) (messages_path u c))
    ∧ (∀ d, d ∈ documents (db s) (messages_path u c) →
            (messages_path u c, d.1) ∈ chat_refs (db s) (messages_path u c))
    ∧ documents (db s') (messages_path u c) = []
    ∧ (fault e (calls s') = None →
       (getChat query e s').1
       = inl (Response 200 (ChatMessages "successfully got chat messages" []))).
Proof.
  intros Hrun. destruct (deleteChat_inv _ _ _ _ _ Hrun) as (u & c & Hr & Hf1 & Hf2).
  rewrite (deleteChat_ok _ _ _ _ _ Hr Hf1 Hf2) in Hrun.
  injection Hrun as <- <-. exists u, c. simpl.
  split_and!; try done.
  - unfold chat_refs. by rewrite length_map.
  - intros d Hd. unfold chat_refs.
    by apply (list_elem_of_fmap_2 (λ d, (messages_path u c, d.1))).
  - apply documents_after_delete_all.
  - intros Hf3. rewrite (getChat_ok _ u c) by done. simpl.
    by rewrite documents_after_delete_all.
Qed.

Lemma deleteChat_removes_all_messages_witness :
  ∃ u c,
    resolves demo_query u c
    ∧ deleted_ok = Response 200 (StatusOnly "successfully deleted chat messages")
    ∧ trace (deleteChat demo_query demo_env (boot demo_store)).2
      = trace (boot demo_store)
          ++ [ELog "Receiving data to delete messages";
              EGet (messages_path u c);
              ECommit (chat_refs (db (boot demo_store)) (messages_path u c))]
    ∧ length (chat_refs (db (boot demo_store)) (messages_path u c))
      = length (documents (db (boot demo_store)) (messages_path u c))
    ∧ (∀ d, d ∈ documents (db (boot demo_store)) (messages_path u c) →
            (messages_path u c, d.1)
            ∈ chat_refs (db (boot demo_store)) (messages_path u c))
    ∧ documents (db (deleteChat demo_query demo_env (boot demo_store)).2)
        (messages_path u c) = []
    ∧ (fault demo_env (calls (deleteChat demo_query demo_env (boot demo_store)).2) = None →
       (getChat demo_query demo_env
          (deleteChat demo_query demo_env (boot demo_store)).2).1
       = inl (Response 200 (ChatMessages "successfully got chat messages" []))).
Proof.
  apply (deleteChat_removes_all_messages demo_query demo_env (boot demo_store)).
  vm_compute. reflexivity.
Defined.



(** ** Runs of [postMessage] that reach the store *)

Lemma postMessage_ok payload u c e s :
  accepted payload e s u c →
  fault e (calls s) = None →
  has_id (chosen_message payload e s) (documents (db s) (messages_path u c)) = false →
  postMessage payload e s =
    (inl (PostResult "new message" (chosen_chat payload e s) (chosen_message payload e s)),
     Sys (store_with_message payload e s u c)
       (S (if truthy (prop payload "chatId") then drawn s else S (drawn s)))
       (S (calls s))
       (trace s ++ [ELog "Receiving message data data for POST";
                    ECreate (messages_path u c) (chosen_message payload e s)])).
Proof.
  intros (Hu & Hnu & Ht & Hs & Hc & Hnc) Hfault Hfresh.
  pose proof (names_document_eqb _ _ Hnu) as Hue.
  unfold store_with_message.
  unfold postMessage, postMessage_try, postMessage_catch, add, chosen_chat,
    chosen_message in *.
  unfold_fn. norm_paths. rewrite Hu, Ht, Hs. simpl. step Hue.
  destruct (truthy (prop payload "chatId")) eqn:Hchat; simpl.
  - step Hnu. step Hc. step Hnc. step Hfault. step Hfresh.
    by rewrite <- ?(app_assoc (trace s)).
  - step Hnu. injection Hc as ->. step Hnc. step Hfault. step Hfresh.
    by rewrite <- ?(app_assoc (trace s)).
Qed.

Lemma postMessage_inv payload e s r s' :
  postMessage payload e s = (inl r, s') →
  ∃ u c,
    accepted payload e s u c
    ∧ fault e (calls s) = None
    ∧ has_id (chosen_message payload e s) (documents (db s) (messages_path u c)) = false.
Proof.
  unfold postMessage, postMessage_try, postMessage_catch, add, accepted,
    chosen_chat, chosen_message.
  unfold_fn. norm_paths.
  destruct (truthy (prop payload "text")) eqn:Ht; [| done].
  destruct (truthy (prop payload "senderId")) eqn:Hs; [| done].
  destruct (truthy (prop payload "userId")) eqn:Hu; [| done]. simpl.
  destruct (prop payload "userId") as [| | | | u | |];
    try (destruct (truthy (prop payload "chatId")); done).
  destruct (truthy (prop payload "chatId")) eqn:Hchat; simpl.
  - destruct (names_document _ u) eqn:Hnu; [| done]. simpl.
    destruct (toString (prop payload "chatId")) as [c |] eqn:Hc; [| done]. simpl.
    destruct (names_document _ c) eqn:Hnc; [| done]. simpl.
    destruct (fault e (calls s)) eqn:Hf; [done |]. simpl.
    destruct (has_id _ _) eqn:Hid; [done |]. intros _.
    exists u, c. by split_and!.
  - destruct (names_document _ u) eqn:Hnu; [| done]. simpl.
    destruct (names_document _ (autoId e (drawn s))) eqn:Hnc; [| done]. simpl.
    destruct (fault e (calls s)) eqn:Hf; [done |]. simpl.
    destruct (has_id _ _) eqn:Hid; [done |]. intros _.
    exists u, (autoId e (drawn s)). by split_and!.
Qed.

(** C3: for a payload with non-empty [userId], [text] and [senderId], a
    successful [postMessage] changes the store by exactly one document: a new
    one in [users/{userId}/chats/{chatId}/messages], with the [senderId] and
    [text] of the payload and the timestamp of the store's clock.  It returns
    [{status: "new message", chatId, messageId}], where [messageId] is the
    identifier of that document. *)
Theorem postMessage_writes_one_document payload e s r s' :
  truthy (prop payload "userId") = true →
  truthy (prop payload "text") = true →
  truthy (prop payload "senderId") = true →
  postMessage payload e s = (inl r, s') →
  ∃ u c,
    prop payload "userId" = JStr u
    ∧ toString (chatId r) = Some c
    ∧ status r = "new message"
    ∧ (messageId r ∉ (documents (db s) (messages_path u c)).*1)
    ∧ colls (db s') =
        (<[messages_path u c :=
             documents (db s) (messages_path u c)
             ++ [(messageId r,
                  Message (prop payload "senderId") (prop payload "text") (now (db s)))]]>
           (colls (db s)))
    ∧ trace s' = trace s ++ [ELog "Receiving message data data for POST";
                             ECreate (messages_path u c) (messageId r)].
Proof.
  intros _ _ _ Hrun.
  destruct (postMessage_inv _ _ _ _ _ Hrun) as (u & c & Hacc & Hfault & Hfresh).
  rewrite (postMessage_ok _ _ _ _ _ Hacc Hfault Hfresh) in Hrun.
  injection Hrun as <- <-. exists u, c. simpl.
  destruct Hacc as (Hu & _ & _ & _ & Hc & _).
  split_and!; try done.
  unfold has_id in Hfresh. by apply bool_decide_eq_false in Hfresh.
Qed.

Lemma postMessage_writes_one_document_witness :
  ∃ u c,
    prop demo_payload "userId" = JStr u
    ∧ toString (JStr "c") = Some c
    ∧ "new message" = "new message"
    ∧ ("id0" ∉ (documents demo_store (messages_path u c)).*1)
    ∧ colls (db (postMessage demo_payload demo_env (boot demo_store)).2) =
        (<[messages_path u c :=
             documents demo_store (messages_path u c)
             ++ [("id0", Message (JStr "bob") (JStr "hi") 4)]]>
           (colls demo_store))
    ∧ trace (postMessage demo_payload demo_env (boot demo_store)).2 =
        [ELog "Receiving message data data for POST";
         ECreate (messages_path u c) "id0"].
Proof.
  apply (postMessage_writes_one_document demo_payload demo_env (boot demo_store)
           (PostResult "new message" (JStr "c") "id0")
           (postMessage demo_payload demo_env (boot demo_store)).2).
  - reflexivity.
  - reflexivity.
  - reflexivity.
  - vm_compute. reflexivity.
Defined.

(** C10: when the payload carries a truthy [chatId], a successful
    [postMessage] returns that very value as [chatId] (a Number stays a
    Number), while the document is created in the message collection of the
    chat that [chatId.toString()] names. *)
Theorem postMessage_returns_given_chatId payload e s r s' :
  truthy (prop payload "chatId") = true →
  postMessage payload e s = (inl r, s') →
  chatId r = prop payload "chatId"
  ∧ ∃ u c,
      prop payload "userId" = JStr u
      ∧ toString (prop payload "chatId") = Some c
      ∧ trace s' = trace s ++ [ELog "Receiving message data data for POST";
                               ECreate (messages_path u c) (messageId r)]
      ∧ messageId r ∈ (documents (db s') (messages_path u c)).*1.
Proof.
  intros Hchat Hrun.
  destruct (postMessage_inv _ _ _ _ _ Hrun) as (u & c & Hacc & Hfault & Hfresh).
  rewrite (postMessage_ok _ _ _ _ _ Hacc Hfault Hfresh) in Hrun.
  injection Hrun as <- <-. simpl.
  destruct Hacc as (Hu & _ & _ & _ & Hc & _).
  unfold chosen_chat in *. rewrite Hchat in *.
  split; [done |]. exists u, c. split_and!; try done.
  unfold documents, store_with_message. simpl. rewrite lookup_insert_eq. simpl.
  rewrite fmap_app. apply elem_of_app. right. simpl. apply list_elem_of_singleton. done.
Qed.

Lemma postMessage_returns_given_chatId_witness :
  JNum (Number "5" true) = prop numbered_payload "chatId"
  ∧ ∃ u c,
      prop numbered_payload "userId" = JStr u
      ∧ toString (prop numbered_payload "chatId") = Some c
      ∧ trace (postMessage numbered_payload demo_env (boot empty_store)).2 =
          [ELog "Receiving message data data for POST";
           ECreate (messages_path u c) "id0"]
      ∧ "id0" ∈ (documents (db (postMessage numbered_payload demo_env (boot empty_store)).2)
                   (messages_path u c)).*1.
Proof.
  apply (postMessage_returns_given_chatId numbered_payload demo_env (boot empty_store)
           (PostResult "new message" (JNum (Number "5" true)) "id0")
           (postMessage numbered_payload demo_env (boot empty_store)).2).
  - reflexivity.
  - vm_compute. reflexivity.
Defined.

(** ** Posting to a new chat, then reading it *)

Lemma prop_userId (uid cid : jsval) :
  prop {[ "userId" := uid; "chatId" := cid ]} "userId" = uid.
Proof. unfold prop. by rewrite lookup_insert_eq. Qed.

Lemma prop_chatId (uid cid : jsval) :
  prop {[ "userId" := uid; "chatId" := cid ]} "chatId" = cid.
Proof.
  unfold prop. rewrite lookup_insert_ne by done. by rewrite lookup_singleton_eq.
Qed.

Lemma documents_store_with_message payload e s u c :
  documents (store_with_message payload e s u c) (messages_path u c)
  = documents (db s) (messages_path u c)
    ++ [(chosen_message payload e s,
         Message (prop payload "senderId") (prop payload "text") (now (db s)))].
Proof. unfold documents at 1, store_with_message. simpl. by rewrite lookup_insert_eq. Qed.

Lemma documents_store_with_message_ne payload e s u c coll :
  messages_path u c ≠ coll →
  documents (store_with_message payload e s u c) coll = documents (db s) coll.
Proof.
  intros Hne. unfold documents, store_with_message. simpl.
  by rewrite lookup_insert_ne.
Qed.




(** ** Isolation between chats *)

(** The answer of [getChat] depends on the store only through the documents
    of the chat the query names. *)
Lemma getChat_outcome_db query e st fs1 fs2 :
  (∀ u c, resolves query u c →
          documents fs1 (messages_path u c) = documents fs2 (messages_path u c)) →
  (getChat query e (with_db st fs1)).1 = (getChat query e (with_db st fs2)).1.
Proof.
  intros Hsame.
  destruct (truthy (prop query "userId")) eqn:Hu;
    [| by rewrite !getChat_rejected by (by rewrite Hu)].
  destruct (truthy (prop query "chatId")) eqn:Hc;
    [| by rewrite !getChat_rejected by (by rewrite Hc, orb_true_r)].
  assert (∀ u c, resolves query u c →
                 documents fs1 (messages_path u c) = documents fs2 (messages_path u c))
    as Hsame' by done.
  unfold resolves in Hsame'.
  unfold getChat, getChat_try, getChat_catch, get. unfold_fn. norm_paths.
  rewrite Hu, Hc. simpl.
  destruct (prop query "userId") as [| | | | u | |] eqn:Huid; try done. simpl.
  destruct (names_document _ u) eqn:Hnu; [| done]. simpl.
  destruct (toString (prop query "chatId")) as [c |] eqn:Hs; [| done]. simpl.
  destruct (names_document _ c) eqn:Hnc; [| done]. simpl.
  destruct (fault e (calls st)) eqn:Hf; [done |]. simpl.
  by rewrite (Hsame' u c).
Qed.

Lemma messages_path_inj u c c' :
  messages_path u c = messages_path u c' → segments c = segments c'.
Proof.
  unfold messages_path, chat_path, collection. intros H.
  apply app_inv_tail in H. by apply app_inv_head in H.
Qed.

(** C8 (amended): a message created by a successful [postMessage] whose
    result carries the chat identifier [A] does not show in what [getChat]
    returns for a [chatId] [B] of the same user, when the string forms of [A]
    and [B] split at the slashes into different lists of non-empty segments:
    under every oracle the answer of [getChat] on the store after the post is
    its answer on the store before. *)
Theorem postMessage_isolated_between_chats payload query A B e s r s' e2 st :
  postMessage payload e s = (inl r, s') →
  chatId r = A →
  prop query "chatId" = B →
  prop query "userId" = prop payload "userId" →
  segments <$> toString A ≠ segments <$> toString B →
  (getChat query e2 (with_db st (db s'))).1
  = (getChat query e2 (with_db st (db s))).1.
Proof.
  intros Hrun <- HB Huser Hdiff.
  destruct (postMessage_inv _ _ _ _ _ Hrun) as (u & c & Hacc & Hfault & Hfresh).
  rewrite (postMessage_ok _ _ _ _ _ Hacc Hfault Hfresh) in Hrun.
  injection Hrun as <- <-. simpl in Hdiff. simpl.
  apply getChat_outcome_db. intros u' c' (Hu' & _ & _ & Hc' & _).
  apply documents_store_with_message_ne.
  destruct Hacc as (Hu & _ & _ & _ & Hc & _).
  rewrite Huser, Hu in Hu'. injection Hu' as <-.
  intros Hpath. apply messages_path_inj in Hpath.
  apply Hdiff. rewrite Hc. rewrite HB in Hc'. rewrite Hc'. simpl. by rewrite Hpath.
Qed.

Lemma postMessage_isolated_between_chats_witness :
  (getChat other_query demo_env
     (with_db (boot empty_store)
        (db (postMessage demo_payload demo_env (boot empty_store)).2))).1
  = (getChat other_query demo_env
       (with_db (boot empty_store) (db (boot empty_store)))).1.
Proof.
  apply (postMessage_isolated_between_chats demo_payload other_query
           (JStr "c") (JStr "6") demo_env (boot empty_store)
           (PostResult "new message" (JStr "c") "id0")
           (postMessage demo_payload demo_env (boot empty_store)).2).
  - vm_compute. reflexivity.
  - reflexivity.
  - reflexivity.
  - reflexivity.
  - vm_compute. discriminate.
Defined.

(** C8 as stated fails: "c" and "c/" are distinct chat identifiers, yet the
    store client drops the empty segment after the slash, so the message
    posted under [chatId = "c"] is the one [getChat] returns for
    [chatId = "c/"] of the same user, a chat that read as empty before the
    post. *)
Lemma chat_isolation_counterexample :
  prop demo_payload "chatId" = JStr "c"
  ∧ prop slash_query "chatId" = JStr "c/"
  ∧ JStr "c" ≠ JStr "c/"
  ∧ prop slash_query "userId" = prop demo_payload "userId"
  ∧ (getChat slash_query demo_env (boot empty_store)).1
    = inl (Response 200 (ChatMessages "successfully got chat messages" []))
  ∧ ∃ s',
      postMessage demo_payload demo_env (boot empty_store)
      = (inl (PostResult "new message" (JStr "c") "id0"), s')
      ∧ (getChat slash_query demo_env s').1
        = inl (Response 200
                 (ChatMessages "successfully got chat messages"
                    [Message (JStr "bob") (JStr "hi") 0])).
Proof.
  split_and!; try done.
  eexists. split; vm_compute; reflexivity.
Qed.

(** ** Failures never reach the store *)

Create HintDb failsafe.

Lemma keeps_db_ret {A} (x : A) : keeps_db (mret x).
Proof. done. Qed.

Lemma keeps_db_throw {A} (err : exn) : keeps_db (@throw A err).
Proof. done. Qed.

Lemma keeps_db_emit ev : keeps_db (emit ev).
Proof. done. Qed.

Lemma keeps_db_network : keeps_db network.
Proof. intros e s. unfold network. by destruct (fault e (calls s)). Qed.

Lemma keeps_db_auto_id : keeps_db auto_id.
Proof. done. Qed.

Lemma keeps_db_get_db : keeps_db get_db.
Proof. done. Qed.

Lemma keeps_db_if {A} (b : bool) (m1 m2 : Fn A) :
  keeps_db m1 → keeps_db m2 → keeps_db (if b then m1 else m2).
Proof. by destruct b. Qed.

Lemma keeps_db_doc id coll : keeps_db (doc id coll).
Proof. destruct id; try done. simpl. by destruct (names_document coll s). Qed.

Lemma keeps_db_to_string name v : keeps_db (to_string name v).
Proof. unfold to_string. by destruct (toString v). Qed.

Lemma keeps_db_bind {A B} (m : Fn A) (f : A → Fn B) :
  keeps_db m → (∀ x, keeps_db (f x)) → keeps_db (m ≫= f).
Proof.
  intros Hm Hf e s. specialize (Hm e s). unfold mbind, Fn_bind.
  destruct (m e s) as [[x | err] s1]; simpl in *; [| done].
  by rewrite Hf.
Qed.

Lemma keeps_db_fail_safe {A} (m : Fn A) : keeps_db m → fail_safe m.
Proof. intros Hm e s err _. apply Hm. Qed.

Lemma fail_safe_bind {A B} (m : Fn A) (f : A → Fn B) :
  keeps_db m → (∀ x, fail_safe (f x)) → fail_safe (m ≫= f).
Proof.
  intros Hm Hf e s err. specialize (Hm e s). unfold mbind, Fn_bind.
  destruct (m e s) as [[x | err0] s1]; simpl in *; [| done].
  intros Herr. by rewrite (Hf x e s1 err).
Qed.

(** A step that can write, followed by the construction of the result. *)
Lemma fail_safe_bind_ret {A B} (m : Fn A) (g : A → B) :
  fail_safe m → fail_safe (m ≫= λ x, mret (g x)).
Proof.
  intros Hm e s err. specialize (Hm e s). unfold mbind, Fn_bind, mret, Fn_ret.
  destruct (m e s) as [[x | err0] s1]; simpl in *; [done |].
  intros [= <-]. by apply (Hm err0).
Qed.

Lemma fail_safe_try_catch {A} (body : Fn A) (handler : exn → Fn A) :
  fail_safe body → (∀ err, keeps_db (handler err)) → fail_safe (try_catch body handler).
Proof.
  intros Hm Hh e s err. specialize (Hm e s). unfold try_catch.
  destruct (body e s) as [[x | err0] s1]; simpl in *; [done |].
  intros _. rewrite Hh. by apply (Hm err0).
Qed.

Lemma fail_safe_add coll sender txt : fail_safe (add coll sender txt).
Proof.
  intros e s err. unfold add. unfold_fn. simpl.
  destruct (fault e (calls s)); simpl; [done |].
  by destruct (has_id _ _).
Qed.

Lemma fail_safe_commit dels : fail_safe (commit dels).
Proof.
  intros e s err. unfold commit. unfold_fn. simpl.
  by destruct (fault e (calls s)).
Qed.

#[local] Hint Resolve keeps_db_ret keeps_db_throw keeps_db_emit keeps_db_network
  keeps_db_auto_id keeps_db_get_db keeps_db_doc keeps_db_to_string : failsafe.
#[local] Hint Extern 2 (keeps_db (_ ≫= _)) =>
  apply keeps_db_bind; [| intros ?] : failsafe.
#[local] Hint Extern 2 (keeps_db (if _ then _ else _)) =>
  apply keeps_db_if : failsafe.

Lemma keeps_db_get coll : keeps_db (get coll).
Proof. unfold get. auto 10 with failsafe. Qed.

Lemma fail_safe_postMessage payload : fail_safe (postMessage payload).
Proof.
  unfold postMessage, postMessage_try, postMessage_catch, logger_log. apply fail_safe_try_catch; cbv zeta.
  - do 6 (apply fail_safe_bind; [auto 10 with failsafe | intros ?]).
    apply (fail_safe_bind_ret _ (PostResult "new message" _)), fail_safe_add.
  - intros err. auto 10 with failsafe.
Qed.

Lemma fail_safe_deleteChat query : fail_safe (deleteChat query).
Proof.
  unfold deleteChat, deleteChat_try, deleteChat_catch, logger_log, logger_error. apply fail_safe_try_catch; cbv zeta.
  - do 6 (apply fail_safe_bind; [auto 10 using keeps_db_get with failsafe | intros ?]).
    apply (fail_safe_bind_ret _ (λ _, Response 200 _)), fail_safe_commit.
  - intros err. auto 10 with failsafe.
Qed.

Lemma try_catch_inr {A} (body : Fn A) (handler : exn → Fn A) e s err s' :
  try_catch body handler e s = (inr err, s') →
  ∃ err0 s0, body e s = (inr err0, s0) ∧ handler err0 e s0 = (inr err, s').
Proof.
  unfold try_catch. destruct (body e s) as [[x | err0] s0]; [done |]. eauto.
Qed.

Lemma run_failed {A} (m : Fn A) e s err s' :
  m e s = (inr err, s') → (m e s).1 = inr err ∧ (m e s).2 = s'.
Proof. by intros ->. Qed.

(** X1: whatever makes [postMessage] fail (the check of the fields, the
    store client refusing an identifier, the store rejecting the write), the
    caller sees one error shape: code [unknown], the fixed message of the
    handler, and as detail the message of the error that was thrown in the
    [try] block.  The store is as it was before the call. *)
Theorem postMessage_failure_shape payload e s err s' :
  postMessage payload e s = (inr err, s') →
  (∃ caught s0,
     postMessage_try payload e s = (inr caught, s0)
     ∧ err = HttpsError "unknown" "An error occurred while adding the message"
               (Some (exn_message caught)))
  ∧ db s' = db s.
Proof.
  intros Hrun. split.
  - unfold postMessage in Hrun.
    apply try_catch_inr in Hrun as (caught & s0 & Hbody & Hh).
    exists caught, s0. split; [done |].
    unfold postMessage_catch in Hh. unfold_fn. simpl in Hh. by injection Hh as <- _.
  - destruct (run_failed _ _ _ _ _ Hrun) as [Herr <-].
    by apply (fail_safe_postMessage payload e s err).
Qed.

Lemma postMessage_failure_shape_witness :
  (∃ caught s0,
     postMessage_try demo_payload (faulty_env 0 "store unavailable") (boot demo_store)
     = (inr caught, s0)
     ∧ HttpsError "unknown" "An error occurred while adding the message"
         (Some "store unavailable")
       = HttpsError "unknown" "An error occurred while adding the message"
           (Some (exn_message caught)))
  ∧ db (postMessage demo_payload (faulty_env 0 "store unavailable") (boot demo_store)).2
    = db (boot demo_store).
Proof.
  apply (postMessage_failure_shape demo_payload (faulty_env 0 "store unavailable")
           (boot demo_store)).
  vm_compute. reflexivity.
Defined.

(** X2: whatever makes [getChat] fail, the error that leaves the handler has
    code [unknown], the fixed message of the handler and, as detail, the
    message of the error that was thrown in the [try] block; the store is
    unchanged. *)
Theorem getChat_failure_shape query e s err s' :
  getChat query e s = (inr err, s') →
  (∃ caught s0,
     getChat_try query e s = (inr caught, s0)
     ∧ err = HttpsError "unknown" "An error occurred while get a specific chat"
               (Some (exn_message caught)))
  ∧ db s' = db s.
Proof.
  intros Hrun. split.
  - unfold getChat in Hrun.
    apply try_catch_inr in Hrun as (caught & s0 & Hbody & Hh).
    exists caught, s0. split; [done |].
    unfold getChat_catch in Hh. unfold_fn. simpl in Hh. by injection Hh as <- _.
  - destruct (run_failed _ _ _ _ _ Hrun) as [_ <-].
    apply (read_only_getChat query e s).
Qed.

Lemma getChat_failure_shape_witness :
  (∃ caught s0,
     getChat_try demo_query (faulty_env 0 "store unavailable") (boot demo_store)
     = (inr caught, s0)
     ∧ HttpsError "unknown" "An error occurred while get a specific chat"
         (Some "store unavailable")
       = HttpsError "unknown" "An error occurred while get a specific chat"
           (Some (exn_message caught)))
  ∧ db (getChat demo_query (faulty_env 0 "store unavailable") (boot demo_store)).2
    = db (boot demo_store).
Proof.
  apply (getChat_failure_shape demo_query (faulty_env 0 "store unavailable")
           (boot demo_store)).
  vm_compute. reflexivity.
Defined.

(** X3: whatever makes [deleteChat] fail, also the rejection of the batch
    commit, the error has code [unknown], the fixed message of the handler
    and, as detail, the message of the error that was thrown in the [try]
    block; no document was deleted: the store is as it was. *)
Theorem deleteChat_failure_shape query e s err s' :
  deleteChat query e s = (inr err, s') →
  (∃ caught s0,
     deleteChat_try query e s = (inr caught, s0)
     ∧ err = HttpsError "unknown" "An error occurred while deleted the messages"
               (Some (exn_message caught)))
  ∧ db s' = db s.
Proof.
  intros Hrun. split.
  - unfold deleteChat in Hrun.
    apply try_catch_inr in Hrun as (caught & s0 & Hbody & Hh).
    exists caught, s0. split; [done |].
    unfold deleteChat_catch in Hh. unfold_fn. simpl in Hh. by injection Hh as <- _.
  - destruct (run_failed _ _ _ _ _ Hrun) as [Herr <-].
    by apply (fail_safe_deleteChat query e s err).
Qed.

Lemma deleteChat_failure_shape_witness :
  (∃ caught s0,
     deleteChat_try demo_query (faulty_env 1 "commit rejected") (boot demo_store)
     = (inr caught, s0)
     ∧ HttpsError "unknown" "An error occurred while deleted the messages"
         (Some "commit rejected")
       = HttpsError "unknown" "An error occurred while deleted the messages"
           (Some (exn_message caught)))
  ∧ db (deleteChat demo_query (faulty_env 1 "commit rejected") (boot demo_store)).2
    = db (boot demo_store).
Proof.
  apply (deleteChat_failure_shape demo_query (faulty_env 1 "commit rejected")
           (boot demo_store)).
  vm_compute. reflexivity.
Defined.

(** ** Errors of the store *)

(** X4: when the store rejects the write of an accepted payload with message
    [msg], [postMessage] fails with code [unknown] and detail [msg]; the
    write was attempted once and the store holds what it held. *)
Theorem postMessage_store_error payload u c msg e s :
  accepted payload e s u c →
  fault e (calls s) = Some msg →
  postMessage payload e s =
    (inr (HttpsError "unknown" "An error occurred while adding the message" (Some msg)),
     Sys (db s)
       (S (if truthy (prop payload "chatId") then drawn s else S (drawn s)))
       (S (calls s))
       (trace s ++ [ELog "Receiving message data data for POST";
                    ECreate (messages_path u c) (chosen_message payload e s);
                    ELog "Error adding message: "])).
Proof.
  intros (Hu & Hnu & Ht & Hs & Hc & Hnc) Hfault.
  pose proof (names_document_eqb _ _ Hnu) as Hue.
  unfold postMessage, postMessage_try, postMessage_catch, add, chosen_chat,
    chosen_message in *.
  unfold_fn. norm_paths. rewrite Hu, Ht, Hs. simpl. step Hue.
  destruct (truthy (prop payload "chatId")) eqn:Hchat; simpl.
  - step Hnu. step Hc. step Hnc. step Hfault.
    by rewrite <- ?(app_assoc (trace s)).
  - step Hnu. injection Hc as ->. step Hnc. step Hfault.
    by rewrite <- ?(app_assoc (trace s)).
Qed.

Lemma postMessage_store_error_witness :
  postMessage demo_payload (faulty_env 0 "store unavailable") (boot demo_store) =
    (inr (HttpsError "unknown" "An error occurred while adding the message"
            (Some "store unavailable")),
     Sys demo_store 1 1
       [ELog "Receiving message data data for POST";
        ECreate (messages_path "u" "c") "id0";
        ELog "Error adding message: "]).
Proof.
  apply (postMessage_store_error demo_payload "u" "c" "store unavailable"
           (faulty_env 0 "store unavailable") (boot demo_store)).
  - unfold accepted. split_and!; reflexivity.
  - reflexivity.
Defined.

(** X5: when the store rejects the read with message [msg], [getChat] fails
    with code [unknown] and detail [msg], after that one read attempt. *)
Theorem getChat_store_error query u c msg e s :
  resolves query u c →
  fault e (calls s) = Some msg →
  getChat query e s =
    (inr (HttpsError "unknown" "An error occurred while get a specific chat" (Some msg)),
     Sys (db s) (drawn s) (S (calls s))
       (trace s ++ [ELog "Receiving data of a specific user's chat";
                    EGet (messages_path u c);
                    ELogError "Error fetching messages:"])).
Proof.
  intros (Hu & Hnu & Ht & Hs & Hnc) Hfault.
  pose proof (names_document_eqb _ _ Hnu) as Hue.
  unfold getChat, getChat_try, getChat_catch, get. unfold_fn. norm_paths.
  rewrite Hu, Ht. simpl. step Hue. step Hnu. step Hs. step Hnc. step Hfault.
  by rewrite <- ?(app_assoc (trace s)).
Qed.

Lemma getChat_store_error_witness :
  getChat demo_query (faulty_env 0 "store unavailable") (boot demo_store) =
    (inr (HttpsError "unknown" "An error occurred while get a specific chat"
            (Some "store unavailable")),
     Sys demo_store 0 1
       [ELog "Receiving data of a specific user's chat";
        EGet (messages_path "u" "c");
        ELogError "Error fetching messages:"]).
Proof.
  apply (getChat_store_error demo_query "u" "c" "store unavailable"
           (faulty_env 0 "store unavailable") (boot demo_store)).
  - unfold resolves. split_and!; reflexivity.
  - reflexivity.
Defined.

(** X6: when the read of the chat is rejected with message [msg],
    [deleteChat] fails with detail [msg] before any batch is committed: the
    only store call of the run is the read. *)
Theorem deleteChat_read_error query u c msg e s :
  resolves query u c →
  fault e (calls s) = Some msg →
  deleteChat query e s =
    (inr (HttpsError "unknown" "An error occurred while deleted the messages" (Some msg)),
     Sys (db s) (drawn s) (S (calls s))
       (trace s ++ [ELog "Receiving data to delete messages";
                    EGet (messages_path u c);
                    ELogError "Error fetching messages:"])).
Proof.
  intros (Hu & Hnu & Ht & Hs & Hnc) Hfault.
  pose proof (names_document_eqb _ _ Hnu) as Hue.
  unfold deleteChat, deleteChat_try, deleteChat_catch, get, commit. unfold_fn.
  norm_paths.
  rewrite Hu, Ht. simpl. step Hue. step Hnu. step Hs. step Hnc. step Hfault.
  by rewrite <- ?(app_assoc (trace s)).
Qed.

Lemma deleteChat_read_error_witness :
  deleteChat demo_query (faulty_env 0 "store unavailable") (boot demo_store) =
    (inr (HttpsError "unknown" "An error occurred while deleted the messages"
            (Some "store unavailable")),
     Sys demo_store 0 1
       [ELog "Receiving data to delete messages";
        EGet (messages_path "u" "c");
        ELogError "Error fetching messages:"]).
Proof.
  apply (deleteChat_read_error demo_query "u" "c" "store unavailable"
           (faulty_env 0 "store unavailable") (boot demo_store)).
  - unfold resolves. split_and!; reflexivity.
  - reflexivity.
Defined.

(** X7: when the read succeeds and the commit of the batch is rejected with
    message [msg], [deleteChat] fails with detail [msg] and every message of
    the chat is still there: the batch held all of them and none was
    deleted. *)
Theorem deleteChat_commit_error query u c msg e s :
  resolves query u c →
  fault e (calls s) = None → fault e (S (calls s)) = Some msg →
  deleteChat query e s =
    (inr (HttpsError "unknown" "An error occurred while deleted the messages" (Some msg)),
     Sys (db s) (drawn s) (S (S (calls s)))
       (trace s ++ [ELog "Receiving data to delete messages";
                    EGet (messages_path u c);
                    ECommit (chat_refs (db s) (messages_path u c));
                    ELogError "Error fetching messages:"])).
Proof.
  intros (Hu & Hnu & Ht & Hs & Hnc) Hf1 Hf2.
  pose proof (names_document_eqb _ _ Hnu) as Hue.
  unfold deleteChat, deleteChat_try, deleteChat_catch, get, commit. unfold_fn.
  norm_paths.
  rewrite Hu, Ht. simpl. step Hue. step Hnu. step Hs. step Hnc. step Hf1. step Hf2.
  by rewrite snapshot_refs, <- ?(app_assoc (trace s)).
Qed.

Lemma deleteChat_commit_error_witness :
  deleteChat demo_query (faulty_env 1 "commit rejected") (boot demo_store) =
    (inr (HttpsError "unknown" "An error occurred while deleted the messages"
            (Some "commit rejected")),
     Sys demo_store 0 2
       [ELog "Receiving data to delete messages";
        EGet (messages_path "u" "c");
        ECommit [(messages_path "u" "c", "m1"); (messages_path "u" "c", "m2");
                 (messages_path "u" "c", "m3")];
        ELogError "Error fetching messages:"]).
Proof.
  apply (deleteChat_commit_error demo_query "u" "c" "commit rejected"
           (faulty_env 1 "commit rejected") (boot demo_store)).
  - unfold resolves. split_and!; reflexivity.
  - reflexivity.
  - reflexivity.
Defined.

(** ** What the handlers read and write *)

(** X8: a successful [getChat] answers HTTP 200 with status "successfully
    got chat messages" and exactly the data of the documents the store holds
    for the chat, as many and in the order the store lists them; nothing is
    filtered, sorted or added. *)
Theorem getChat_returns_stored_messages query e s resp s' :
  getChat query e s = (inl resp, s') →
  ∃ u c,
    resolves query u c
    ∧ resp = Response 200
               (ChatMessages "successfully got chat messages"
                  (documents (db s) (messages_path u c)).*2)
    ∧ trace s' = trace s ++ [ELog "Receiving data of a specific user's chat";
                             EGet (messages_path u c)].
Proof.
  intros Hrun. destruct (getChat_inv _ _ _ _ _ Hrun) as (u & c & Hr & Hf).
  rewrite (getChat_ok _ _ _ _ _ Hr Hf) in Hrun. injection Hrun as <- <-.
  by exists u, c.
Qed.

Lemma getChat_returns_stored_messages_witness :
  ∃ u c,
    resolves demo_query u c
    ∧ Response 200
        (ChatMessages "successfully got chat messages"
           [demo_message 0; demo_message 1; demo_message 2])
      = Response 200
          (ChatMessages "successfully got chat messages"
             (documents (db (boot demo_store)) (messages_path u c)).*2)
    ∧ trace (getChat demo_query demo_env (boot demo_store)).2
      = trace (boot demo_store)
          ++ [ELog "Receiving data of a specific user's chat";
              EGet (messages_path u c)].
Proof.
  apply (getChat_returns_stored_messages demo_query demo_env (boot demo_store)).
  vm_compute. reflexivity.
Defined.

(** X9: reading a chat that was never created is no error: with the store
    reachable, [getChat] answers HTTP 200 with an empty message list. *)
Theorem getChat_unknown_chat_is_empty query u c e s :
  resolves query u c →
  fault e (calls s) = None →
  colls (db s) !! messages_path u c = None →
  (getChat query e s).1
  = inl (Response 200 (ChatMessages "successfully got chat messages" [])).
Proof.
  intros Hr Hf Hnone. rewrite (getChat_ok _ _ _ _ _ Hr Hf). simpl.
  unfold documents. by rewrite Hnone.
Qed.

Lemma getChat_unknown_chat_is_empty_witness :
  (getChat other_query demo_env (boot demo_store)).1
  = inl (Response 200 (ChatMessages "successfully got chat messages" [])).
Proof.
  apply (getChat_unknown_chat_is_empty other_query "u" "6" demo_env (boot demo_store)).
  - unfold resolves. split_and!; reflexivity.
  - reflexivity.
  - reflexivity.
Defined.

(** X10: [postMessage] is not idempotent: two successful calls in succession
    with the same payload (naming a chat) create two documents with different
    identifiers, and the chat holds two messages more than before. *)
Theorem postMessage_twice_creates_two payload e s r1 s1 r2 s2 :
  truthy (prop payload "chatId") = true →
  postMessage payload e s = (inl r1, s1) →
  postMessage payload e s1 = (inl r2, s2) →
  ∃ u c,
    prop payload "userId" = JStr u
    ∧ toString (prop payload "chatId") = Some c
    ∧ messageId r1 ≠ messageId r2
    ∧ messageId r1 ∈ (documents (db s2) (messages_path u c)).*1
    ∧ messageId r2 ∈ (documents (db s2) (messages_path u c)).*1
    ∧ length (documents (db s2) (messages_path u c))
      = S (S (length (documents (db s) (messages_path u c)))).
Proof.
  intros Hchat Hrun1 Hrun2.
  destruct (postMessage_inv _ _ _ _ _ Hrun1) as (u & c & Hacc1 & Hf1 & Hnew1).
  rewrite (postMessage_ok _ _ _ _ _ Hacc1 Hf1 Hnew1) in Hrun1.
  injection Hrun1 as <- <-.
  destruct (postMessage_inv _ _ _ _ _ Hrun2) as (u' & c' & Hacc2 & Hf2 & Hnew2).
  rewrite (postMessage_ok _ _ _ _ _ Hacc2 Hf2 Hnew2) in Hrun2.
  injection Hrun2 as <- <-.
  destruct Hacc1 as (Hu & _ & _ & _ & Hc & _).
  destruct Hacc2 as (Hu' & _ & _ & _ & Hc' & _).
  unfold chosen_chat in Hc, Hc'. rewrite Hchat in Hc, Hc'.
  assert (u' = u) as -> by congruence. assert (c' = c) as -> by congruence.
  simpl in Hnew2. rewrite documents_store_with_message in Hnew2.
  unfold has_id in Hnew2. apply bool_decide_eq_false in Hnew2.
  rewrite fmap_app, elem_of_app in Hnew2. simpl in Hnew2.
  exists u, c. simpl. rewrite !documents_store_with_message. simpl.
  rewrite documents_store_with_message.
  split_and!; try done.
  - intros Heq. apply Hnew2. right. rewrite Heq. apply list_elem_of_singleton. done.
  - rewrite !fmap_app, !elem_of_app. simpl. left. right.
    by apply list_elem_of_singleton.
  - rewrite !fmap_app, !elem_of_app. simpl. right.
    by apply list_elem_of_singleton.
  - rewrite !length_app. simpl. lia.
Qed.

Lemma postMessage_twice_creates_two_witness :
  ∃ u c,
    prop demo_payload "userId" = JStr u
    ∧ toString (prop demo_payload "chatId") = Some c
    ∧ "id0" ≠ "id1"
    ∧ "id0" ∈ (documents
                 (db (postMessage demo_payload demo_env
                        (postMessage demo_payload demo_env (boot demo_store)).2).2)
                 (messages_path u c)).*1
    ∧ "id1" ∈ (documents
                 (db (postMessage demo_payload demo_env
                        (postMessage demo_payload demo_env (boot demo_store)).2).2)
                 (messages_path u c)).*1
    ∧ length (documents
                (db (postMessage demo_payload demo_env
                       (postMessage demo_payload demo_env (boot demo_store)).2).2)
                (messages_path u c))
      = S (S (length (documents (db (boot demo_store)) (messages_path u c)))).
Proof.
  apply (postMessage_twice_creates_two demo_payload demo_env (boot demo_store)
           (PostResult "new message" (JStr "c") "id0")
           (postMessage demo_payload demo_env (boot demo_store)).2
           (PostResult "new message" (JStr "c") "id1")
           (postMessage demo_payload demo_env
              (postMessage demo_payload demo_env (boot demo_store)).2).2).
  - reflexivity.
  - vm_compute. reflexivity.
  - vm_compute. reflexivity.
Defined.

(** X11: a successful [deleteChat] touches the messages of the one chat its
    query names: every other collection (other chats of the user, chats of
    other users) holds afterwards what it held before, and the server clock
    has not moved. *)
Theorem deleteChat_leaves_other_chats query e s resp s' :
  deleteChat query e s = (inl resp, s') →
  ∃ u c,
    resolves query u c
    ∧ (∀ coll, coll ≠ messages_path u c →
               documents (db s') coll = documents (db s) coll)
    ∧ now (db s') = now (db s).
Proof.
  intros Hrun. destruct (deleteChat_inv _ _ _ _ _ Hrun) as (u & c & Hr & Hf1 & Hf2).
  rewrite (deleteChat_ok _ _ _ _ _ Hr Hf1 Hf2) in Hrun.
  injection Hrun as <- <-. exists u, c. simpl. split_and!; try done.
  intros coll Hne. by apply documents_after_delete_other.
Qed.

Lemma deleteChat_leaves_other_chats_witness :
  ∃ u c,
    resolves demo_query u c
    ∧ (∀ coll, coll ≠ messages_path u c →
               documents (db (deleteChat demo_query demo_env (boot demo_store)).2) coll
               = documents (db (boot demo_store)) coll)
    ∧ now (db (deleteChat demo_query demo_env (boot demo_store)).2)
      = now (db (boot demo_store)).
Proof.
  apply (deleteChat_leaves_other_chats demo_query demo_env (boot demo_store) deleted_ok).
  vm_compute. reflexivity.
Defined.

(** X12: for [postMessage] a [chatId] that is present but falsy (the empty
    string, [0], [null], [false]) counts as no [chatId]: the run is the run
    of the payload without it, so a new chat identifier is generated. *)
Theorem postMessage_falsy_chatId_like_absent payload v e s :
  payload !! "chatId" = Some v → truthy v = false →
  postMessage payload e s = postMessage (delete "chatId" payload) e s.
Proof.
  intros Hv Hfalsy. unfold postMessage, postMessage_try, postMessage_catch.
  assert (∀ k, k ≠ "chatId" → prop (delete "chatId" payload) k = prop payload k) as Hk.
  { intros k Hne. unfold prop. by rewrite lookup_delete_ne. }
  rewrite !Hk by done.
  assert (prop payload "chatId" = v) as -> by (unfold prop; by rewrite Hv).
  assert (prop (delete "chatId" payload) "chatId" = JUndefined) as ->
    by (unfold prop; by rewrite lookup_delete_eq).
  rewrite Hfalsy. reflexivity.
Qed.

Lemma postMessage_falsy_chatId_like_absent_witness :
  postMessage (<["chatId" := JStr ""]> new_chat_payload) demo_env (boot demo_store)
  = postMessage (delete "chatId" (<["chatId" := JStr ""]> new_chat_payload))
      demo_env (boot demo_store).
Proof.
  apply (postMessage_falsy_chatId_like_absent
           (<["chatId" := JStr ""]> new_chat_payload) (JStr "")).
  - reflexivity.
  - reflexivity.
Defined.

(** ** Invariants of the store *)

Lemma store_ok_with_message payload e s u c :
  store_ok (db s) →
  has_id (chosen_message payload e s) (documents (db s) (messages_path u c)) = false →
  store_ok (store_with_message payload e s u c).
Proof.
  intros Hok Hnew coll. destruct (Hok coll) as [Hdup Hts].
  destruct (decide (messages_path u c = coll)) as [<- | Hne].
  - rewrite documents_store_with_message. split.
    + rewrite fmap_app. simpl. apply NoDup_app. split_and!; [done | | ].
      * intros x Hx Hin. apply list_elem_of_singleton in Hin as ->.
        unfold has_id in Hnew. by apply bool_decide_eq_false in Hnew.
      * apply NoDup_singleton.
    + apply Forall_app. split.
      * eapply Forall_impl; [exact Hts |]. simpl. intros d Hd. lia.
      * apply Forall_singleton. simpl. lia.
  - rewrite documents_store_with_message_ne by done. split; [done |].
    eapply Forall_impl; [exact Hts |]. simpl. intros d Hd. lia.
Qed.

Lemma store_ok_after_delete fs coll :
  store_ok fs →
  store_ok (Firestore (foldr delete_doc (colls fs) (chat_refs fs coll)) (now fs)).
Proof.
  intros Hok coll'. destruct (decide (coll = coll')) as [<- | Hne].
  - rewrite documents_after_delete_all. split; [apply NoDup_nil_2 | apply Forall_nil_2].
  - rewrite documents_after_delete_other by done. apply Hok.
Qed.

(** X13: the three handlers keep the store well formed: if before a call no
    collection holds two documents under one identifier and every timestamp
    lies before the server clock, the same is true after the call, whatever
    the input and whether the call succeeds or fails. *)
Theorem handlers_keep_store_ok (input : gmap string jsval) e s :
  store_ok (db s) →
  store_ok (db (postMessage input e s).2)
  ∧ store_ok (db (getChat input e s).2)
  ∧ store_ok (db (deleteChat input e s).2).
Proof.
  intros Hok. split_and!.
  - destruct (postMessage input e s) as [[r | err] s'] eqn:Hrun.
    + destruct (postMessage_inv _ _ _ _ _ Hrun) as (u & c & Hacc & Hf & Hnew).
      rewrite (postMessage_ok _ _ _ _ _ Hacc Hf Hnew) in Hrun.
      injection Hrun as <- <-. simpl. by apply store_ok_with_message.
    + simpl. destruct (run_failed _ _ _ _ _ Hrun) as [Herr <-].
      by rewrite (fail_safe_postMessage input e s err).
  - by rewrite (proj1 (read_only_getChat input e s)).
  - destruct (deleteChat input e s) as [[r | err] s'] eqn:Hrun.
    + destruct (deleteChat_inv _ _ _ _ _ Hrun) as (u & c & Hr & Hf1 & Hf2).
      rewrite (deleteChat_ok _ _ _ _ _ Hr Hf1 Hf2) in Hrun.
      injection Hrun as <- <-. simpl. by apply store_ok_after_delete.
    + simpl. destruct (run_failed _ _ _ _ _ Hrun) as [Herr <-].
      by rewrite (fail_safe_deleteChat input e s err).
Qed.

Lemma demo_store_ok : store_ok demo_store.
Proof.
  intros coll. unfold documents, demo_store. simpl.
  destruct (decide (coll = messages_path "u" "c")) as [-> | Hc].
  { rewrite lookup_insert_eq. simpl. split.
    - apply (bool_decide_unpack _). by vm_compute.
    - repeat constructor. }
  rewrite lookup_insert_ne by done.
  destruct (decide (coll = messages_path "u" "d")) as [-> | Hd].
  { rewrite lookup_singleton_eq. simpl. split.
    - apply NoDup_singleton.
    - repeat constructor. }
  rewrite lookup_singleton_ne by done. simpl. split; constructor.
Qed.

Lemma handlers_keep_store_ok_witness :
  store_ok (db (postMessage demo_payload demo_env (boot demo_store)).2)
  ∧ store_ok (db (getChat demo_payload demo_env (boot demo_store)).2)
  ∧ store_ok (db (deleteChat demo_payload demo_env (boot demo_store)).2).
Proof.
  apply (handlers_keep_store_ok demo_payload demo_env (boot demo_store)).
  simpl. exact demo_store_ok.
Defined.

(** X14: in a well-formed store, the message a successful [postMessage]
    creates carries a timestamp strictly later than that of every document
    the store held before the call. *)
Theorem postMessage_timestamp_is_latest payload e s r s' :
  store_ok (db s) →
  postMessage payload e s = (inl r, s') →
  ∃ u c msg,
    (messageId r, msg) ∈ documents (db s') (messages_path u c)
    ∧ senderId msg = prop payload "senderId"
    ∧ text msg = prop payload "text"
    ∧ ∀ coll d, d ∈ documents (db s) coll → (timestamp d.2 < timestamp msg)%nat.
Proof.
  intros Hok Hrun.
  destruct (postMessage_inv _ _ _ _ _ Hrun) as (u & c & Hacc & Hf & Hnew).
  rewrite (postMessage_ok _ _ _ _ _ Hacc Hf Hnew) in Hrun.
  injection Hrun as <- <-. simpl.
  exists u, c, (Message (prop payload "senderId") (prop payload "text") (now (db s))).
  split_and!; try done.
  - rewrite documents_store_with_message. apply elem_of_app. right.
    by apply list_elem_of_singleton.
  - intros coll d Hd. simpl. destruct (Hok coll) as [_ Hts].
    rewrite Forall_forall in Hts. by apply Hts.
Qed.

Lemma postMessage_timestamp_is_latest_witness :
  ∃ u c msg,
    ("id0", msg)
    ∈ documents (db (postMessage demo_payload demo_env (boot demo_store)).2)
        (messages_path u c)
    ∧ senderId msg = prop demo_payload "senderId"
    ∧ text msg = prop demo_payload "text"
    ∧ ∀ coll d, d ∈ documents (db (boot demo_store)) coll →
                (timestamp d.2 < timestamp msg)%nat.
Proof.
  apply (postMessage_timestamp_is_latest demo_payload demo_env (boot demo_store)
           (PostResult "new message" (JStr "c") "id0")
           (postMessage demo_payload demo_env (boot demo_store)).2).
  - simpl. exact demo_store_ok.
  - vm_compute. reflexivity.
Defined.

(** X15: [postMessage] never removes or alters a document: whatever the
    payload and the outcome, every document a collection held before the
    call it holds after it, and the server clock has not gone back. *)
Theorem postMessage_never_removes payload e s coll :
  documents (db s) coll ⊆ documents (db (postMessage payload e s).2) coll
  ∧ (now (db s) ≤ now (db (postMessage payload e s).2))%nat.
Proof.
  destruct (postMessage payload e s) as [[r | err] s'] eqn:Hrun.
  - destruct (postMessage_inv _ _ _ _ _ Hrun) as (u & c & Hacc & Hf & Hnew).
    rewrite (postMessage_ok _ _ _ _ _ Hacc Hf Hnew) in Hrun.
    injection Hrun as <- <-. simpl. split; [| lia].
    destruct (decide (messages_path u c = coll)) as [<- | Hne].
    + rewrite documents_store_with_message. intros d Hd.
      apply elem_of_app. by left.
    + by rewrite documents_store_with_message_ne.
  - simpl. destruct (run_failed _ _ _ _ _ Hrun) as [Herr <-].
    by rewrite (fail_safe_postMessage payload e s err).
Qed.

(** ** When the handlers succeed *)

(** X16: [postMessage] succeeds exactly when [userId] is a string the store
    client takes as the identifier of a user document, [text] and [senderId]
    are truthy, the chat identifier it goes on with (the truthy [chatId] of
    the payload, else the generated one) has a string form the store client
    takes as the identifier of a chat document, the store accepts the write,
    and the message identifier drawn is not taken in the chat. *)
Theorem postMessage_succeeds_iff payload e s :
  (∃ r s', postMessage payload e s = (inl r, s'))
  ↔ ∃ u c,
      accepted payload e s u c
      ∧ fault e (calls s) = None
      ∧ has_id (chosen_message payload e s) (documents (db s) (messages_path u c)) = false.
Proof.
  split.
  - intros (r & s' & Hrun). by apply (postMessage_inv _ _ _ _ _ Hrun).
  - intros (u & c & Hacc & Hf & Hnew).
    rewrite (postMessage_ok _ _ _ _ _ Hacc Hf Hnew). eauto.
Qed.

(** X17: [getChat] succeeds exactly when [userId] is a string the store
    client takes as the identifier of a user document, [chatId] is truthy and
    has a string form the store client takes as the identifier of a chat
    document, and the store answers the read. *)
Theorem getChat_succeeds_iff query e s :
  (∃ resp s', getChat query e s = (inl resp, s'))
  ↔ (∃ u c, resolves query u c) ∧ fault e (calls s) = None.
Proof.
  split.
  - intros (r & s' & Hrun).
    destruct (getChat_inv _ _ _ _ _ Hrun) as (u & c & Hr & Hf). eauto.
  - intros [(u & c & Hr) Hf]. rewrite (getChat_ok _ _ _ _ _ Hr Hf). eauto.
Qed.

(** X18: [deleteChat] succeeds exactly when [userId] is a string the store
    client takes as the identifier of a user document, [chatId] is truthy and
    has a string form the store client takes as the identifier of a chat
    document, and the store answers both the read and the batch commit. *)
Theorem deleteChat_succeeds_iff query e s :
  (∃ resp s', deleteChat query e s = (inl resp, s'))
  ↔ (∃ u c, resolves query u c)
    ∧ fault e (calls s) = None ∧ fault e (S (calls s)) = None.
Proof.
  split.
  - intros (r & s' & Hrun).
    destruct (deleteChat_inv _ _ _ _ _ Hrun) as (u & c & Hr & Hf1 & Hf2). eauto.
  - intros ((u & c & Hr) & Hf1 & Hf2).
    rewrite (deleteChat_ok _ _ _ _ _ Hr Hf1 Hf2). eauto.
Qed.

(** ** Composition *)

(** X19: after a successful [postMessage], to a new chat or to one that
    holds messages already, a [getChat] with the payload's [userId] [u] and
    the returned [chatId], of string form [c], answers, when its read goes
    through, with the messages the chat [c] of user [u] held before and the
    new one, each once. *)
Theorem postMessage_then_getChat payload e s r s' :
  postMessage payload e s = (inl r, s') →
  fault e (calls s') = None →
  ∃ u c msgs,
    prop payload "userId" = JStr u
    ∧ toString (chatId r) = Some c
    ∧ (getChat {[ "userId" := prop payload "userId"; "chatId" := chatId r ]} e s').1
      = inl (Response 200 (ChatMessages "successfully got chat messages" msgs))
    ∧ msgs ≡ₚ Message (prop payload "senderId") (prop payload "text") (now (db s))
              :: (documents (db s) (messages_path u c)).*2.
Proof.
  intros Hrun Hf'.
  destruct (postMessage_inv _ _ _ _ _ Hrun) as (u & c & Hacc & Hf & Hnew).
  rewrite (postMessage_ok _ _ _ _ _ Hacc Hf Hnew) in Hrun.
  injection Hrun as <- <-. simpl in *.
  destruct Hacc as (Hu & Hnu & _ & _ & Hc & Hnc).
  assert (truthy (chosen_chat payload e s) = true) as Htruthy.
  { unfold chosen_chat in *. destruct (truthy (prop payload "chatId")) eqn:Hchat; [done |].
    simpl in Hc. injection Hc as ->. apply truthy_JStr.
    by eapply names_document_nonempty. }
  eexists u, c, _. split; [done |]. split; [done |]. split.
  - rewrite (getChat_ok _ u c); [reflexivity | | done].
    unfold resolves. rewrite prop_userId, prop_chatId. by split_and!.
  - simpl. rewrite documents_store_with_message, fmap_app. simpl.
    by rewrite Permutation_app_comm.
Qed.

Lemma postMessage_then_getChat_witness :
  ∃ u c msgs,
    prop demo_payload "userId" = JStr u
    ∧ toString (JStr "c") = Some c
    ∧ (getChat {[ "userId" := prop demo_payload "userId"; "chatId" := JStr "c" ]}
         demo_env (postMessage demo_payload demo_env (boot demo_store)).2).1
      = inl (Response 200 (ChatMessages "successfully got chat messages" msgs))
    ∧ msgs ≡ₚ Message (prop demo_payload "senderId") (prop demo_payload "text") 4
              :: (documents (db (boot demo_store)) (messages_path u c)).*2.
Proof.
  apply (postMessage_then_getChat demo_payload demo_env (boot demo_store)
           (PostResult "new message" (JStr "c") "id0")
           (postMessage demo_payload demo_env (boot demo_store)).2).
  - vm_compute. reflexivity.
  - reflexivity.
Defined.
